(** * Stock market data pipeline

    A shallow embedding of [scripts/stock_data_fetcher.py] and
    [dags/stock_pipeline.py]: the data source client with its synthetic-data
    fallback, the transactional upsert writer, the two guards and the static
    task graph.

    Conventions of the embedding:
    - Python values that come out of [response.json()] are [Py.json] terms; a
      [dict] is an association list in insertion order.
    - A Python function is a computation [M A]: it takes the state of the
      world, returns either a value or a raised exception, and the state it
      leaves behind.  Effects survive an exception.
    - What the program only calls (the clock, the random generator, the HTTP
      endpoint, the database server's faults, [strptime], [float], [int]) is a
      field of the [world] record: every theorem quantifies over it.
    - Floating-point prices are idealised as exact rationals ([Q]); a value
      printed with [:.2f] is the integer number of cents it rounds to. *)

From Stdlib Require Import ZArith QArith Qround String Ascii List Bool Lia.
From stdpp Require Import base list strings gmap pretty.
Import ListNotations.

Set Warnings "-register-all".
Open Scope Z_scope.

(** ** Python values, exceptions and the few builtins the program uses *)

Module Py.

Inductive json : Type :=
| JNull
| JBool (b : bool)
| JNum (q : Q)
| JStr (s : string)
| JArr (items : list json)
| JObj (fields : list (string * json)).

(** The exception classes the program can see.  [RequestException] stands for
    [requests.exceptions.RequestException] and its subclasses,
    [DatabaseError] for [psycopg2.Error] and its subclasses, [PlainException]
    for a bare [Exception(msg)]. *)
Inductive exn : Type :=
| RequestException
| ValueError (msg : string)
| KeyError (key : string)
| TypeError
| AttributeError
| DatabaseError
| PlainException (msg : string).

Inductive result (A : Type) : Type :=
| Ok (a : A)
| Raise (e : exn).
Arguments Ok {A} a.
Arguments Raise {A} e.

Definition is_ok {A} (r : result A) : bool :=
  match r with Ok _ => true | Raise _ => false end.

(** *** dict operations *)

Fixpoint dict_get {V} (k : string) (d : list (string * V)) : option V :=
  match d with
  | [] => None
  | (k', v) :: d' => if String.eqb k k' then Some v else dict_get k d'
  end.

Definition dict_mem {V} (k : string) (d : list (string * V)) : bool :=
  match dict_get k d with Some _ => true | None => false end.

(** [d[k] = v]: an existing key keeps its place, a new one goes last. *)
Fixpoint dict_set {V} (k : string) (v : V) (d : list (string * V))
  : list (string * V) :=
  match d with
  | [] => [(k, v)]
  | (k', v') :: d' =>
      if String.eqb k k' then (k, v) :: d' else (k', v') :: dict_set k v d'
  end.

Definition dict_keys {V} (d : list (string * V)) : list string := map fst d.

(** *** [in], subscripting and [.items()] on a decoded JSON value *)

Fixpoint substringb (needle hay : string) : bool :=
  String.prefix needle hay
  || match hay with
     | EmptyString => false
     | String _ hay' => substringb needle hay'
     end.

Definition is_str (s : string) (v : json) : bool :=
  match v with JStr s' => String.eqb s s' | _ => false end.

(** [k in c] for a string [k]: key membership on a dict, element equality on
    a list, substring test on a string, [TypeError] on the scalars. *)
Definition py_contains (k : string) (c : json) : result bool :=
  match c with
  | JObj d => Ok (dict_mem k d)
  | JArr xs => Ok (existsb (is_str k) xs)
  | JStr s => Ok (substringb k s)
  | JNull | JBool _ | JNum _ => Raise TypeError
  end.

(** [c[k]] for a string [k]. *)
Definition py_getitem (c : json) (k : string) : result json :=
  match c with
  | JObj d =>
      match dict_get k d with
      | Some v => Ok v
      | None => Raise (KeyError k)
      end
  | _ => Raise TypeError
  end.

(** [c.items()]. *)
Definition py_items (c : json) : result (list (string * json)) :=
  match c with
  | JObj d => Ok d
  | _ => Raise AttributeError
  end.

(** Truthiness of the value [os.getenv] returns. *)
Definition truthy (v : option string) : bool :=
  match v with
  | None => false
  | Some s => negb (String.eqb s "")
  end.

(** [repr] of a list of plain identifiers, as an f-string prints it. *)
Fixpoint join (sep : string) (l : list string) : string :=
  match l with
  | [] => ""
  | [s] => s
  | s :: l' => s +:+ sep +:+ join sep l'
  end.

Definition repr_str (s : string) : string := "'" +:+ s +:+ "'".

Definition repr_list (l : list string) : string :=
  "[" +:+ join ", " (map repr_str l) +:+ "]".

(** Round to the nearest integer, ties to even. *)
Definition round_half_even (q : Q) : Z :=
  let f := Qfloor q in
  match Qcompare (q - inject_Z f) (1 # 2) with
  | Lt => f
  | Gt => f + 1
  | Eq => if Z.even f then f else f + 1
  end.

(** Toward zero, as [int(x)] does on a number. *)
Definition Qtrunc (q : Q) : Z :=
  if Qle_bool 0 q then Qfloor q else Qceiling q.

Definition two_digits (n : Z) : string :=
  if n <? 10 then "0" +:+ pretty n else pretty n.

(** [f'{x:.2f}'] of the value whose rounding is [cents] hundredths. *)
Definition show_cents (cents : Z) : string :=
  (if cents <? 0 then "-" else "")
  +:+ pretty (Z.abs cents / 100) +:+ "." +:+ two_digits (Z.abs cents mod 100).

Definition cents_of (x : Q) : Z := round_half_even (x * 100).

Definition format_2f (x : Q) : string := show_cents (cents_of x).

End Py.

(** ** Naive local date-times, as [datetime] objects *)

Module Clock.

Record datetime : Type := {
  year : Z; month : Z; day : Z; hour : Z; minute : Z; second : Z
}.

#[global] Instance datetime_eq_dec : EqDecision datetime.
Proof. solve_decision. Defined.

Definition is_leap (y : Z) : bool :=
  (y mod 4 =? 0) && (negb (y mod 100 =? 0) || (y mod 400 =? 0)).

Definition days_in_month (y m : Z) : Z :=
  if m =? 2 then (if is_leap y then 29 else 28)
  else if (m =? 4) || (m =? 6) || (m =? 9) || (m =? 11) then 30
  else 31.

(** [dt - timedelta(hours=1)], keeping minutes and seconds. *)
Definition prev_hour (dt : datetime) : datetime :=
  if 0 <? hour dt then
    {| year := year dt; month := month dt; day := day dt;
       hour := hour dt - 1; minute := minute dt; second := second dt |}
  else if 1 <? day dt then
    {| year := year dt; month := month dt; day := day dt - 1;
       hour := 23; minute := minute dt; second := second dt |}
  else if 1 <? month dt then
    {| year := year dt; month := month dt - 1;
       day := days_in_month (year dt) (month dt - 1);
       hour := 23; minute := minute dt; second := second dt |}
  else
    {| year := year dt - 1; month := 12; day := 31;
       hour := 23; minute := minute dt; second := second dt |}.

(** [dt - timedelta(hours=i)]. *)
Fixpoint minus_hours (i : nat) (dt : datetime) : datetime :=
  match i with
  | O => dt
  | S i' => prev_hour (minus_hours i' dt)
  end.

Definition date_part (dt : datetime) : string :=
  pretty (year dt) +:+ "-" +:+ Py.two_digits (month dt)
  +:+ "-" +:+ Py.two_digits (day dt).

(** [dt.strftime('%Y-%m-%d %H:%M:%S')], for a four-digit year. *)
Definition strftime_full (dt : datetime) : string :=
  date_part dt +:+ " " +:+ Py.two_digits (hour dt)
  +:+ ":" +:+ Py.two_digits (minute dt) +:+ ":" +:+ Py.two_digits (second dt).

(** [dt.strftime('%Y-%m-%d %H:00:00')]. *)
Definition strftime_hour (dt : datetime) : string :=
  date_part dt +:+ " " +:+ Py.two_digits (hour dt) +:+ ":00:00".

Definition valid_time (dt : datetime) : Prop :=
  0 <= hour dt < 24.

(** Two readings fall in the same clock hour. *)
Definition same_hour (a b : datetime) : Prop :=
  year a = year b /\ month a = month b /\ day a = day b /\ hour a = hour b.

End Clock.

(** ** The [stock_prices] table and the upsert statement *)

Module Db.

Record row : Type := {
  symbol : string;
  timestamp : Clock.datetime;
  open_price : Q;
  high_price : Q;
  low_price : Q;
  close_price : Q;
  volume : Z;
  created_at : Z
}.

(** The parameters bound into the statement ([parsed_data]). *)
Record params : Type := {
  p_symbol : string;
  p_timestamp : Clock.datetime;
  p_open : Q;
  p_high : Q;
  p_low : Q;
  p_close : Q;
  p_volume : Z
}.

Abbreviation table := (list row).

Abbreviation key := (string * Clock.datetime)%type.

Definition row_key (r : row) : key := (symbol r, timestamp r).
Definition params_key (p : params) : key := (p_symbol p, p_timestamp p).

Definition key_eqb (a b : key) : bool := bool_decide (a = b).

(** The row a fresh [INSERT] creates; [dflt] is what the column default of
    [created_at] gives (the table's DDL is not among the sources). *)
Definition new_row (dflt : Z) (p : params) : row :=
  {| symbol := p_symbol p; timestamp := p_timestamp p;
     open_price := p_open p; high_price := p_high p;
     low_price := p_low p; close_price := p_close p;
     volume := p_volume p; created_at := dflt |}.

(** The [DO UPDATE SET ...] branch: the five data columns take the excluded
    row's values and [created_at] takes [CURRENT_TIMESTAMP]. *)
Definition update_row (now : Z) (p : params) (r : row) : row :=
  {| symbol := symbol r; timestamp := timestamp r;
     open_price := p_open p; high_price := p_high p;
     low_price := p_low p; close_price := p_close p;
     volume := p_volume p; created_at := now |}.

(** [INSERT ... ON CONFLICT (symbol, timestamp) DO UPDATE ... RETURNING
    (xmax = 0) AS inserted]: the flag is [true] for a fresh row and [false]
    when an existing row was overwritten. *)
Fixpoint upsert (now dflt : Z) (p : params) (t : table) : bool * table :=
  match t with
  | [] => (true, [new_row dflt p])
  | r :: t' =>
      if key_eqb (row_key r) (params_key p)
      then (false, update_row now p r :: t')
      else let '(ins, t'') := upsert now dflt p t' in (ins, r :: t'')
  end.

Definition rows_with (k : key) (t : table) : list row :=
  filter (fun r => row_key r = k) t.

(** The unique constraint the conflict target names. *)
Definition unique_keys (t : table) : Prop := NoDup (map row_key t).

Definition has_key (k : key) (t : table) : bool :=
  existsb (fun r => key_eqb (row_key r) k) t.

End Db.

(** ** The world the program runs in, and computations over it *)

Module Sys.
Import Py.

(** What [requests.get(...)], [raise_for_status()] and [response.json()]
    come to: an exception out of one of them, or the decoded body. *)
Inductive http_outcome : Type :=
| HttpRaises (e : exn)
| HttpJson (data : json).

Inductive level : Type := INFO | WARNING | ERROR.

(** Observable calls, oldest first in a trace.  A database event is recorded
    when the call is made, whether or not it then raises. *)
Inductive event : Type :=
| Log (l : level)
| HttpGet (symbol : string)
| DbConnect
| DbCursor (c : nat)
| DbExecute (c : nat)
| DbFetchOne (c : nat)
| DbCommit (c : nat)
| DbRollback (c : nat)
| DbCursorClose (c : nat)
| DbClose (c : nat).

Definition is_http (e : event) : bool :=
  match e with HttpGet _ => true | _ => false end.

Definition is_db (e : event) : bool :=
  match e with Log _ | HttpGet _ => false | _ => true end.

(** Everything the program reads from outside.  Each oracle is indexed by
    the number of calls made before, so successive calls may differ. *)
Record world : Type := {
  getenv : string -> option string;
  now : nat -> Clock.datetime;          (* k-th [datetime.now()] *)
  random : nat -> Q;                    (* k-th draw, as [random.random()] *)
  randbelow : nat -> Z -> Z;            (* k-th draw, as [_randbelow(n)] *)
  http_get : nat -> string -> string -> http_outcome; (* symbol, api key *)
  db_fault : nat -> event -> bool;      (* the k-th database call, being
                                           this one, raises *)
  db_now : nat -> Z;                    (* server clock at the k-th call *)
  created_at_default : Z -> Z;          (* column default, from server time *)
  strptime : string -> option Clock.datetime; (* format '%Y-%m-%d %H:%M:%S' *)
  float_of_string : string -> option Q; (* [float(s)], [None] = ValueError *)
  int_of_string : string -> option Z    (* [int(s)], [None] = ValueError *)
}.

(** The generator's contract: [random()] lies in [0, 1) and
    [_randbelow(n)] in [0, n). *)
Definition rng_ok (w : world) : Prop :=
  (forall k, (0 <= random w k)%Q /\ (random w k < 1)%Q)
  /\ (forall k n, 0 < n -> 0 <= randbelow w k n < n).

Definition clock_ok (w : world) : Prop :=
  forall k, Clock.valid_time (now w k).

(** An open connection: the transaction in progress, if any (its start time
    and its working copy of the table, [None] when the table does not
    exist), and the one-column row its cursor holds for [fetchone()]. *)
Record conn : Type := {
  txn : option (Z * option Db.table);
  fetched : option bool
}.

Record state : Type := {
  clock_reads : nat;
  draws : nat;
  requests : nat;
  db_calls : nat;
  stored : option Db.table;   (* committed rows; [None]: no such table *)
  conns : gmap nat conn;      (* the connections that are open *)
  next_conn : nat;
  trace : list event
}.

Definition M (A : Type) : Type := state -> result A * state.

Definition ret {A} (a : A) : M A := fun st => (Ok a, st).

Definition raise {A} (e : exn) : M A := fun st => (Raise e, st).

Definition bind {A B} (c : M A) (k : A -> M B) : M B :=
  fun st =>
    match c st with
    | (Ok a, st') => k a st'
    | (Raise e, st') => (Raise e, st')
    end.

(** [try: body  except C1: h1  except C2: h2 ...]: a clause is the test for
    its classes and its handler; the first clause that matches runs, and an
    exception no clause matches goes on to the caller. *)
Definition clause (A : Type) : Type := ((exn -> bool) * (exn -> M A))%type.

Fixpoint dispatch {A} (clauses : list (clause A)) (e : exn) : option (M A) :=
  match clauses with
  | [] => None
  | (catches, handler) :: rest =>
      if catches e then Some (handler e) else dispatch rest e
  end.

Definition try_except {A} (body : M A) (clauses : list (clause A)) : M A :=
  fun st =>
    match body st with
    | (Ok a, st') => (Ok a, st')
    | (Raise e, st') =>
        match dispatch clauses e with
        | Some h => h st'
        | None => (Raise e, st')
        end
    end.

Definition lift {A} (r : result A) : M A := fun st => (r, st).

Definition any_exception (e : exn) : bool := true.

Definition is_request_exception (e : exn) : bool :=
  match e with RequestException => true | _ => false end.

Definition is_value_or_key_error (e : exn) : bool :=
  match e with ValueError _ | KeyError _ => true | _ => false end.

Definition emit (ev : event) (st : state) : state :=
  {| clock_reads := clock_reads st; draws := draws st;
     requests := requests st; db_calls := db_calls st;
     stored := stored st; conns := conns st; next_conn := next_conn st;
     trace := trace st ++ [ev] |}.

Definition log (l : level) : M unit := fun st => (Ok tt, emit (Log l) st).

End Sys.

Declare Scope py_scope.
Delimit Scope py_scope with py.
Notation "x <- c ;; k" := (Sys.bind c (fun x => k))
  (at level 100, c at next level, right associativity) : py_scope.
Notation "c ;; k" := (Sys.bind c (fun _ => k))
  (at level 100, right associativity) : py_scope.
Local Open Scope py_scope.

(** ** The database driver, as the program uses it *)

Module Dbapi.
Import Py Sys.

Section WithWorld.
Context (w : world).

(** One call on the driver is recorded and counted, and raises when the
    fault oracle says so.  The value is the call's index. *)
Definition tick (ev : event) (st : state) : state :=
  {| clock_reads := clock_reads st; draws := draws st;
     requests := requests st; db_calls := S (db_calls st);
     stored := stored st; conns := conns st; next_conn := next_conn st;
     trace := trace st ++ [ev] |}.

Definition db_call (ev : event) : M nat :=
  fun st =>
    if db_fault w (db_calls st) ev
    then (Raise DatabaseError, tick ev st)
    else (Ok (db_calls st), tick ev st).

Definition set_conns (cs : gmap nat conn) (st : state) : state :=
  {| clock_reads := clock_reads st; draws := draws st;
     requests := requests st; db_calls := db_calls st;
     stored := stored st; conns := cs; next_conn := next_conn st;
     trace := trace st |}.

Definition set_stored (t : option Db.table) (st : state) : state :=
  {| clock_reads := clock_reads st; draws := draws st;
     requests := requests st; db_calls := db_calls st;
     stored := t; conns := conns st; next_conn := next_conn st;
     trace := trace st |}.

Definition set_conn (c : nat) (cn : conn) : M unit :=
  fun st => (Ok tt, set_conns (<[c := cn]> (conns st)) st).

(** A call on a connection that is no longer open raises. *)
Definition get_conn (c : nat) : M conn :=
  fun st =>
    match conns st !! c with
    | Some cn => (Ok cn, st)
    | None => (Raise DatabaseError, st)
    end.

(** [psycopg2.connect] with the fixed [DB_CONFIG]. *)
Definition open_conn (st : state) : state :=
  {| clock_reads := clock_reads st; draws := draws st;
     requests := requests st; db_calls := db_calls st;
     stored := stored st;
     conns := <[next_conn st := {| txn := None; fetched := None |}]>
                (conns st);
     next_conn := S (next_conn st); trace := trace st |}.

Definition connect : M nat :=
  _ <- db_call DbConnect ;;
  fun st => (Ok (next_conn st), open_conn st).

(** [conn.cursor()]; the cursor is named after its connection. *)
Definition cursor (c : nat) : M nat :=
  _ <- db_call (DbCursor c) ;;
  _ <- get_conn c ;;
  ret c.

(** The transaction a statement runs in: the open one, or a new one that
    starts now on the committed data. *)
Definition current_txn (k : nat) (cn : conn) (st : state)
  : Z * option Db.table :=
  match txn cn with
  | Some t => t
  | None => (db_now w k, stored st)
  end.

(** [cursor.execute("SELECT EXISTS (... table_name = 'stock_prices')")] *)
Definition execute_table_exists (c : nat) : M unit :=
  k <- db_call (DbExecute c) ;;
  cn <- get_conn c ;;
  fun st =>
    let '(t0, work) := current_txn k cn st in
    set_conn c {| txn := Some (t0, work);
                  fetched := Some (match work with Some _ => true
                                              | None => false end) |} st.

(** [cursor.execute(insert_query, parsed_data)] *)
Definition execute_upsert (c : nat) (p : Db.params) : M unit :=
  k <- db_call (DbExecute c) ;;
  cn <- get_conn c ;;
  fun st =>
    let '(t0, work) := current_txn k cn st in
    match work with
    | None =>
        (_ <- set_conn c {| txn := Some (t0, work); fetched := None |} ;;
         raise DatabaseError) st
    | Some t =>
        let '(ins, t') := Db.upsert t0 (created_at_default w t0) p t in
        set_conn c {| txn := Some (t0, Some t'); fetched := Some ins |} st
    end.

(** [cursor.fetchone()[0]] *)
Definition fetchone (c : nat) : M bool :=
  _ <- db_call (DbFetchOne c) ;;
  cn <- get_conn c ;;
  match fetched cn with
  | Some b => _ <- set_conn c {| txn := txn cn; fetched := None |} ;; ret b
  | None => raise DatabaseError
  end.

(** [conn.commit()] *)
Definition commit (c : nat) : M unit :=
  _ <- db_call (DbCommit c) ;;
  cn <- get_conn c ;;
  match txn cn with
  | Some (_, work) =>
      _ <- set_conn c {| txn := None; fetched := fetched cn |} ;;
      fun st => (Ok tt, set_stored work st)
  | None => ret tt
  end.

(** [conn.rollback()] *)
Definition rollback (c : nat) : M unit :=
  _ <- db_call (DbRollback c) ;;
  cn <- get_conn c ;;
  set_conn c {| txn := None; fetched := fetched cn |}.

(** [cursor.close()] *)
Definition cursor_close (c : nat) : M unit :=
  _ <- db_call (DbCursorClose c) ;;
  fun st =>
    match conns st !! c with
    | Some cn => set_conn c {| txn := txn cn; fetched := None |} st
    | None => (Ok tt, st)
    end.

(** [conn.close()]: the connection is gone, with whatever it had not
    committed. *)
Definition close (c : nat) : M unit :=
  _ <- db_call (DbClose c) ;;
  fun st => (Ok tt, set_conns (delete c (conns st)) st).

End WithWorld.
End Dbapi.

(** ** [scripts/stock_data_fetcher.py] *)

Module Fetcher.
Import Py Sys.

Definition base_prices : list (string * Q) :=
  [("AAPL", 150%Q); ("GOOGL", 2800%Q); ("MSFT", 300%Q);
   ("AMZN", 3000%Q); ("TSLA", 200%Q)].

(** [base_prices.get(symbol, 100.0)] *)
Definition base_price_of (symbol : string) : Q :=
  match dict_get symbol base_prices with
  | Some p => p
  | None => 100%Q
  end.

Definition time_series_key : string := "Time Series (60min)".

Definition placeholder_key : string := "your_api_key_here".

(** One entry of the time series, from the numbers of cents its four prices
    print as. *)
Definition entry_json (o h l c : Z) (volume : Z) : json :=
  JObj [("1. open", JStr (show_cents o));
        ("2. high", JStr (show_cents h));
        ("3. low", JStr (show_cents l));
        ("4. close", JStr (show_cents c));
        ("5. volume", JStr (pretty volume))].

Record store_result : Type := {
  res_symbol : string;
  records_inserted : Z;
  records_updated : Z;
  status : string
}.

Definition rbind {A B} (r : result A) (k : A -> result B) : result B :=
  match r with
  | Ok a => k a
  | Raise e => Raise e
  end.

Section WithWorld.
Context (w : world).

Definition datetime_now : M Clock.datetime :=
  fun st =>
    (Ok (now w (clock_reads st)),
     {| clock_reads := S (clock_reads st); draws := draws st;
        requests := requests st; db_calls := db_calls st;
        stored := stored st; conns := conns st; next_conn := next_conn st;
        trace := trace st |}).

Definition next_draw (st : state) : state :=
  {| clock_reads := clock_reads st; draws := S (draws st);
     requests := requests st; db_calls := db_calls st;
     stored := stored st; conns := conns st; next_conn := next_conn st;
     trace := trace st |}.

(** [random.uniform(a, b)], which is [a + (b - a) * random()]. *)
Definition random_uniform (a b : Q) : M Q :=
  fun st => (Ok (a + (b - a) * random w (draws st))%Q, next_draw st).

(** [random.randint(a, b)], which is [a + _randbelow(b + 1 - a)]. *)
Definition random_randint (a b : Z) : M Z :=
  fun st => (Ok (a + randbelow w (draws st) (b + 1 - a)), next_draw st).

(** [requests.get(URL, params=..., timeout=30)], [raise_for_status()] and
    [response.json()]. *)
Definition http_request (symbol api_key : string) : M json :=
  fun st =>
    let st' :=
      {| clock_reads := clock_reads st; draws := draws st;
         requests := S (requests st); db_calls := db_calls st;
         stored := stored st; conns := conns st; next_conn := next_conn st;
         trace := trace st ++ [HttpGet symbol] |} in
    match http_get w (requests st) symbol api_key with
    | HttpRaises e => (Raise e, st')
    | HttpJson data => (Ok data, st')
    end.

Definition get_database_connection : M nat :=
  try_except
    (conn <- Dbapi.connect w ;;
     log INFO ;;
     ret conn)
    [(any_exception, fun e => log ERROR ;; raise e)].

Definition validate_database_connection : M bool :=
  try_except
    (conn <- get_database_connection ;;
     cursor <- Dbapi.cursor w conn ;;
     Dbapi.execute_table_exists w cursor ;;
     table_exists <- Dbapi.fetchone w cursor ;;
     (if negb table_exists
      then log ERROR ;;
           raise (PlainException "Required table 'stock_prices' not found")
      else ret tt) ;;
     Dbapi.cursor_close w cursor ;;
     Dbapi.close w conn ;;
     log INFO ;;
     ret true)
    [(any_exception, fun e => log ERROR ;; raise e)].

(** One turn of the loop of [_get_demo_data]: the key and the entry it
    stores under it. *)
Definition demo_point (base_price : Q) (i : nat) : M (string * json) :=
  t <- datetime_now ;;
  let timestamp := Clock.strftime_hour (Clock.minus_hours i t) in
  variation <- random_uniform (- (5 # 100))%Q (5 # 100)%Q ;;
  let open_price := (base_price * (1 + variation))%Q in
  up <- random_uniform 0%Q (2 # 100)%Q ;;
  let high_price := (open_price * (1 + up))%Q in
  down <- random_uniform 0%Q (2 # 100)%Q ;;
  let low_price := (open_price * (1 - down))%Q in
  close_price <- random_uniform low_price high_price ;;
  volume <- random_randint 100000 1000000 ;;
  ret (timestamp,
       JObj [("1. open", JStr (format_2f open_price));
             ("2. high", JStr (format_2f high_price));
             ("3. low", JStr (format_2f low_price));
             ("4. close", JStr (format_2f close_price));
             ("5. volume", JStr (pretty volume))]).

(** [for i in range(5): ... demo_data['Time Series (60min)'][timestamp] =
    {...}], on the inner dict. *)
Fixpoint demo_series (base_price : Q) (range : list nat)
    (series : list (string * json)) : M (list (string * json)) :=
  match range with
  | [] => ret series
  | i :: range' =>
      point <- demo_point base_price i ;;
      demo_series base_price range' (dict_set (fst point) (snd point) series)
  end.

Definition _get_demo_data (symbol : string) : M json :=
  let base_price := base_price_of symbol in
  refreshed <- datetime_now ;;
  let meta_data :=
    JObj [("1. Information",
           JStr "Intraday (60min) open, high, low, close prices and volume");
          ("2. Symbol", JStr symbol);
          ("3. Last Refreshed", JStr (Clock.strftime_full refreshed));
          ("4. Interval", JStr "60min");
          ("5. Output Size", JStr "Compact");
          ("6. Time Zone", JStr "US/Eastern")] in
  series <- demo_series base_price (seq 0 5) [] ;;
  log INFO ;;
  ret (JObj [("Meta Data", meta_data); (time_series_key, JObj series)]).

(** [not api_key or api_key == 'your_api_key_here'] *)
Definition no_valid_key (api_key : option string) : bool :=
  negb (truthy api_key)
  || match api_key with
     | Some k => String.eqb k placeholder_key
     | None => false
     end.

Definition fallback (symbol : string) (e : exn) : M json :=
  log ERROR ;; log INFO ;; _get_demo_data symbol.

(** The [try] block of [fetch_stock_data]. *)
Definition fetch_live (symbol api_key : string) : M json :=
  log INFO ;;
  data <- http_request symbol api_key ;;
  has_error <- lift (py_contains "Error Message" data) ;;
  if has_error then
    _ <- lift (py_getitem data "Error Message") ;;
    raise (PlainException "API Error")
  else
    has_note <- lift (py_contains "Note" data) ;;
    if has_note then
      _ <- lift (py_getitem data "Note") ;;
      log WARNING ;;
      _get_demo_data symbol
    else
      has_series <- lift (py_contains time_series_key data) ;;
      if negb has_series then
        log WARNING ;;
        _get_demo_data symbol
      else
        log INFO ;;
        ret data.

Definition fetch_stock_data (symbol : string) : M json :=
  let api_key := getenv w "ALPHA_VANTAGE_API_KEY" in
  if no_valid_key api_key then
    log WARNING ;;
    _get_demo_data symbol
  else
    try_except
      (fetch_live symbol (default "" api_key))
      [(is_request_exception, fallback symbol);
       (any_exception, fallback symbol)].

(** [float(v)] and [int(v)] on a decoded JSON value. *)
Definition py_float (v : json) : result Q :=
  match v with
  | JStr s =>
      match float_of_string w s with
      | Some q => Ok q
      | None => Raise (ValueError "could not convert string to float")
      end
  | JNum q => Ok q
  | JBool b => Ok (if b then 1%Q else 0%Q)
  | JNull | JArr _ | JObj _ => Raise TypeError
  end.

Definition py_int (v : json) : result Z :=
  match v with
  | JStr s =>
      match int_of_string w s with
      | Some n => Ok n
      | None => Raise (ValueError "invalid literal for int()")
      end
  | JNum q => Ok (Qtrunc q)
  | JBool b => Ok (if b then 1 else 0)
  | JNull | JArr _ | JObj _ => Raise TypeError
  end.

Definition py_strptime (s : string) : result Clock.datetime :=
  match strptime w s with
  | Some dt => Ok dt
  | None => Raise (ValueError "time data does not match format")
  end.

(** The [parsed_data] dict of one entry, its items evaluated in order. *)
Definition parse_entry (symbol timestamp : string) (values : json)
  : result Db.params :=
  rbind (py_strptime timestamp) (fun ts =>
  rbind (rbind (py_getitem values "1. open") py_float) (fun o =>
  rbind (rbind (py_getitem values "2. high") py_float) (fun h =>
  rbind (rbind (py_getitem values "3. low") py_float) (fun l =>
  rbind (rbind (py_getitem values "4. close") py_float) (fun c =>
  rbind (rbind (py_getitem values "5. volume") py_int) (fun v =>
  Ok {| Db.p_symbol := symbol; Db.p_timestamp := ts;
        Db.p_open := o; Db.p_high := h; Db.p_low := l; Db.p_close := c;
        Db.p_volume := v |})))))).

(** The body of the loop over [time_series.items()]; [counts] is
    [(records_inserted, records_updated)]. *)
Definition store_entry (cursor : nat) (symbol : string) (counts : Z * Z)
    (item : string * json) : M (Z * Z) :=
  try_except
    (parsed_data <- lift (parse_entry symbol (fst item) (snd item)) ;;
     Dbapi.execute_upsert w cursor parsed_data ;;
     inserted <- Dbapi.fetchone w cursor ;;
     ret (if inserted then (fst counts + 1, snd counts)
          else (fst counts, snd counts + 1)))
    [(is_value_or_key_error, fun _ => log WARNING ;; ret counts)].

Fixpoint store_all (cursor : nat) (symbol : string) (counts : Z * Z)
    (items : list (string * json)) : M (Z * Z) :=
  match items with
  | [] => ret counts
  | item :: items' =>
      counts' <- store_entry cursor symbol counts item ;;
      store_all cursor symbol counts' items'
  end.

(** The inner [try: if 'conn' in locals(): conn.rollback(); conn.close()
    except: pass]; [conn] is [None] while the name is unbound. *)
Definition cleanup (conn : option nat) : M unit :=
  try_except
    (match conn with
     | Some c => Dbapi.rollback w c ;; Dbapi.close w c
     | None => ret tt
     end)
    [(any_exception, fun _ => ret tt)].

(** The outer [except Exception as e: ... raise]. *)
Definition on_error {A} (conn : option nat) (e : exn) : M A :=
  log ERROR ;; cleanup conn ;; raise e.

(** The [try] block of [process_and_store_data] up to the binding of
    [conn], with the call that obtains the payload as a parameter. *)
Definition bind_phase (fetch : M json) (symbol : string) : M (json * nat) :=
  log INFO ;;
  raw_data <- fetch ;;
  has_series <- lift (py_contains time_series_key raw_data) ;;
  (if negb has_series
   then raise (PlainException ("No time series data found for " +:+ symbol))
   else ret tt) ;;
  time_series <- lift (py_getitem raw_data time_series_key) ;;
  conn <- get_database_connection ;;
  ret (time_series, conn).

(** The rest of the block. *)
Definition write_phase (symbol : string) (time_series : json) (conn : nat)
  : M store_result :=
  cursor <- Dbapi.cursor w conn ;;
  items <- lift (py_items time_series) ;;
  counts <- store_all cursor symbol (0, 0) items ;;
  Dbapi.commit w conn ;;
  Dbapi.cursor_close w cursor ;;
  Dbapi.close w conn ;;
  log INFO ;;
  ret {| res_symbol := symbol;
         records_inserted := fst counts;
         records_updated := snd counts;
         status := "success" |}.

(** [process_and_store_data].  Its one [try] is written in two parts, before
    and after [conn] is bound, because the handler looks [conn] up in
    [locals()]. *)
Definition process_with (fetch : M json) (symbol : string) : M store_result :=
  bound <- try_except (bind_phase fetch symbol)
             [(any_exception, on_error None)] ;;
  try_except (write_phase symbol (fst bound) (snd bound))
    [(any_exception, on_error (Some (snd bound)))].

Definition process_and_store_data (symbol : string) : M store_result :=
  process_with (fetch_stock_data symbol) symbol.

End WithWorld.
End Fetcher.

(** ** [dags/stock_pipeline.py] *)

Module Dag.
Import Py Sys.

Definition STOCK_SYMBOLS : list string :=
  ["AAPL"; "GOOGL"; "MSFT"; "AMZN"; "TSLA"].

Definition api_key_var : string := "ALPHA_VANTAGE_API_KEY".

Definition required_vars : list string := [api_key_var].

Definition missing_message (missing_vars : list string) : string :=
  "Missing required environment variables: " +:+ repr_list missing_vars.

Inductive task : Type :=
| CheckEnv
| LogStart
| ValidateDb
| FetchData (symbol : string)
| ProcessAndStore (symbol : string)
| LogEnd.

#[global] Instance task_eq_dec : EqDecision task.
Proof. solve_decision. Defined.

Definition task_id (t : task) : string :=
  match t with
  | CheckEnv => "check_environment_variables"
  | LogStart => "log_pipeline_start"
  | ValidateDb => "validate_database_connection"
  | FetchData symbol => "fetch_data_" +:+ symbol
  | ProcessAndStore symbol => "process_and_store_" +:+ symbol
  | LogEnd => "log_pipeline_end"
  end.

(** The operators, in the order the module creates them. *)
Definition tasks : list task :=
  [CheckEnv; LogStart; ValidateDb]
  ++ flat_map (fun symbol => [FetchData symbol; ProcessAndStore symbol])
       STOCK_SYMBOLS
  ++ [LogEnd].

(** The [>>] dependencies, upstream task first. *)
Definition edges : list (task * task) :=
  map (fun symbol => (FetchData symbol, ProcessAndStore symbol)) STOCK_SYMBOLS
  ++ [(CheckEnv, LogStart); (LogStart, ValidateDb)]
  ++ map (fun symbol => (ValidateDb, FetchData symbol)) STOCK_SYMBOLS
  ++ map (fun symbol => (ProcessAndStore symbol, LogEnd)) STOCK_SYMBOLS.

Definition upstream (t : task) : list task :=
  map fst (List.filter (fun e => bool_decide (snd e = t)) edges).

(** The tasks that must have succeeded before [t] is launched: its upstream
    tasks and theirs, [n] edges deep. *)
Fixpoint ancestors (n : nat) (t : task) : list task :=
  match n with
  | O => []
  | S n' => upstream t ++ flat_map (ancestors n') (upstream t)
  end.

Section WithWorld.
Context (w : world).

(** [check_environment_variables], for a given list of required names. *)
Definition check_required (required : list string) : M bool :=
  let missing_vars :=
    List.filter (fun var => negb (truthy (getenv w var))) required in
  match missing_vars with
  | _ :: _ => raise (ValueError (missing_message missing_vars))
  | [] => log INFO ;; ret true
  end.

Definition check_environment_variables : M bool :=
  check_required required_vars.

Definition log_pipeline_start : M string :=
  log INFO ;; log INFO ;; ret "Pipeline started successfully".

Definition log_pipeline_end : M string :=
  log INFO ;; ret "Pipeline completed successfully".

(** What each operator calls; the return value is not used by the graph. *)
Definition python_callable (t : task) : M unit :=
  match t with
  | CheckEnv => _ <- check_environment_variables ;; ret tt
  | LogStart => _ <- log_pipeline_start ;; ret tt
  | ValidateDb => _ <- Fetcher.validate_database_connection w ;; ret tt
  | FetchData symbol => _ <- Fetcher.fetch_stock_data w symbol ;; ret tt
  | ProcessAndStore symbol =>
      _ <- Fetcher.process_and_store_data w symbol ;; ret tt
  | LogEnd => _ <- log_pipeline_end ;; ret tt
  end.

End WithWorld.
End Dag.

(** ** Sample worlds

    Concrete oracles to run the program on: a clock, draws, a database that
    never fails, and parsers that accept the plain decimal numerals and
    the fixed-width timestamps the program itself prints. *)

Module Example.
Import Py Sys.

Definition digit_value (c : ascii) : option Z :=
  let n := Z.of_nat (nat_of_ascii c) in
  if (48 <=? n) && (n <=? 57) then Some (n - 48) else None.

Fixpoint digits_value (acc : Z) (s : string) : option Z :=
  match s with
  | EmptyString => Some acc
  | String c s' =>
      match digit_value c with
      | Some d => digits_value (10 * acc + d) s'
      | None => None
      end
  end.

(** [int(s)] on a string of decimal digits. *)
Definition parse_digits (s : string) : option Z :=
  match s with
  | EmptyString => None
  | _ => digits_value 0 s
  end.

(** [float(s)] on [digits.digits]. *)
Definition parse_decimal (s : string) : option Q :=
  match String.index 0 "." s with
  | None => None
  | Some i =>
      let whole := String.substring 0 i s in
      let frac := String.substring (S i) (String.length s - S i) s in
      match parse_digits whole, parse_digits frac with
      | Some a, Some b =>
          Some (inject_Z a + inject_Z b / inject_Z (10 ^ Z.of_nat (String.length frac)))%Q
      | _, _ => None
      end
  end.

Definition field (s : string) (from len : nat) : option Z :=
  parse_digits (String.substring from len s).

(** [strptime(s, '%Y-%m-%d %H:%M:%S')] on the zero-padded form. *)
Definition parse_timestamp (s : string) : option Clock.datetime :=
  if negb (String.length s =? 19)%nat then None
  else if negb (String.eqb (String.substring 4 1 s) "-"
                && String.eqb (String.substring 7 1 s) "-"
                && String.eqb (String.substring 10 1 s) " "
                && String.eqb (String.substring 13 1 s) ":"
                && String.eqb (String.substring 16 1 s) ":") then None
  else
    match field s 0 4, field s 5 2, field s 8 2,
          field s 11 2, field s 14 2, field s 17 2 with
    | Some y, Some mo, Some d, Some h, Some mi, Some sec =>
        if (1 <=? y) && (1 <=? mo) && (mo <=? 12) && (1 <=? d)
           && (d <=? Clock.days_in_month y mo)
           && (h <? 24) && (mi <? 60) && (sec <? 60)
        then Some {| Clock.year := y; Clock.month := mo; Clock.day := d;
                     Clock.hour := h; Clock.minute := mi;
                     Clock.second := sec |}
        else None
    | _, _, _, _, _, _ => None
    end.

Definition at_time (h mi s : Z) : Clock.datetime :=
  {| Clock.year := 2024; Clock.month := 1; Clock.day := 15;
     Clock.hour := h; Clock.minute := mi; Clock.second := s |}.

(** No API key, a clock standing at 12:30, every draw in the middle of its
    range, a network that is down, a database that never fails. *)
Definition offline : world :=
  {| getenv := fun _ => None;
     now := fun _ => at_time 12 30 0;
     random := fun _ => (1 # 2)%Q;
     randbelow := fun _ n => n / 2;
     http_get := fun _ _ _ => HttpRaises RequestException;
     db_fault := fun _ _ => false;
     db_now := fun k => 1000 + Z.of_nat k;
     created_at_default := fun t => t;
     strptime := parse_timestamp;
     float_of_string := parse_decimal;
     int_of_string := parse_digits |}.

Definition with_env (env : string -> option string) (w : world) : world :=
  {| getenv := env; now := now w; random := random w;
     randbelow := randbelow w; http_get := http_get w;
     db_fault := db_fault w; db_now := db_now w;
     created_at_default := created_at_default w;
     strptime := strptime w; float_of_string := float_of_string w;
     int_of_string := int_of_string w |}.

Definition with_faults (faults : nat -> event -> bool) (w : world) : world :=
  {| getenv := getenv w; now := now w; random := random w;
     randbelow := randbelow w; http_get := http_get w;
     db_fault := faults; db_now := db_now w;
     created_at_default := created_at_default w;
     strptime := strptime w; float_of_string := float_of_string w;
     int_of_string := int_of_string w |}.

Definition with_http (http : nat -> string -> string -> http_outcome)
    (w : world) : world :=
  {| getenv := getenv w; now := now w; random := random w;
     randbelow := randbelow w; http_get := http;
     db_fault := db_fault w; db_now := db_now w;
     created_at_default := created_at_default w;
     strptime := strptime w; float_of_string := float_of_string w;
     int_of_string := int_of_string w |}.

(** The key is set to the placeholder of the sample configuration. *)
Definition placeholder_env (var : string) : option string :=
  if String.eqb var "ALPHA_VANTAGE_API_KEY"
  then Some Fetcher.placeholder_key else None.

Definition key_env (var : string) : option string :=
  if String.eqb var "ALPHA_VANTAGE_API_KEY" then Some "K3Y" else None.

(** A fresh process in front of an empty [stock_prices] table, and one in
    front of a database where the table was never created. *)
Definition start (table : option Db.table) : state :=
  {| clock_reads := 0; draws := 0; requests := 0; db_calls := 0;
     stored := table; conns := ∅; next_conn := 0; trace := [] |}.

Definition quote_fields (o h l c v : string) : json :=
  JObj [("1. open", JStr o); ("2. high", JStr h); ("3. low", JStr l);
        ("4. close", JStr c); ("5. volume", JStr v)].

(** Three entries, the second with a volume that is no number. *)
Definition batch_with_bad_volume : list (string * json) :=
  [("2024-01-15 10:00:00", quote_fields "10.00" "10.50" "9.50" "10.25" "1000");
   ("2024-01-15 11:00:00", quote_fields "10.25" "10.75" "10.00" "10.50" "n/a");
   ("2024-01-15 12:00:00", quote_fields "10.50" "11.00" "10.25" "10.75" "3000")].

Definition payload_of (series : list (string * json)) : json :=
  JObj [("Meta Data", JObj []); (Fetcher.time_series_key, JObj series)].

End Example.

(** * Properties *)

(** ** The upsert statement keeps one row per key *)

Module DbFacts.
Import Db.

Lemma key_eqb_true (a b : key) : key_eqb a b = true <-> a = b.
Proof. unfold key_eqb. apply bool_decide_eq_true. Qed.

Lemma key_eqb_false (a b : key) : key_eqb a b = false <-> a <> b.
Proof. unfold key_eqb. apply bool_decide_eq_false. Qed.

Lemma update_row_key now p r : row_key (update_row now p r) = row_key r.
Proof. reflexivity. Qed.

Lemma new_row_key d p : row_key (new_row d p) = params_key p.
Proof. reflexivity. Qed.

Lemma has_key_In k t : has_key k t = true <-> In k (map row_key t).
Proof.
  unfold has_key. rewrite existsb_exists, in_map_iff. split.
  - intros [r [Hr Hk]]. apply key_eqb_true in Hk. eauto.
  - intros [r [Hk Hr]]. exists r. split; [done|]. by apply key_eqb_true.
Qed.

Lemma has_key_false k t : has_key k t = false <-> ~ In k (map row_key t).
Proof.
  rewrite <- has_key_In. destruct (has_key k t); split; intros H; try done;
    exfalso; auto.
Qed.

(** The flag tells whether the key was free. *)
Lemma upsert_flag now d p t :
  fst (upsert now d p t) = negb (has_key (params_key p) t).
Proof.
  induction t as [|r t IH]; simpl; [done|].
  destruct (key_eqb (row_key r) (params_key p)) eqn:E; simpl; [done|].
  destruct (upsert now d p t) as [ins t'']. simpl in *. done.
Qed.

(** The keys of the table after the statement. *)
Lemma upsert_keys now d p t :
  map row_key (snd (upsert now d p t)) =
  if has_key (params_key p) t then map row_key t
  else map row_key t ++ [params_key p].
Proof.
  induction t as [|r t IH]; simpl; [done|].
  destruct (key_eqb (row_key r) (params_key p)) eqn:E; simpl; [done|].
  destruct (upsert now d p t) as [ins t'']. simpl in *. rewrite IH.
  by destruct (has_key (params_key p) t).
Qed.

Lemma upsert_unique now d p t :
  unique_keys t -> unique_keys (snd (upsert now d p t)).
Proof.
  unfold unique_keys. intros Hu. rewrite upsert_keys.
  destruct (has_key (params_key p) t) eqn:E; [done|].
  apply has_key_false in E.
  apply NoDup_app. split; [done|]. split.
  - intros x Hx Hx'. apply list_elem_of_In in Hx.
    apply list_elem_of_In in Hx'. simpl in Hx'. destruct Hx' as [<-|[]]. done.
  - apply NoDup_singleton.
Qed.

Lemma rows_with_absent k t :
  ~ In k (map row_key t) -> rows_with k t = [].
Proof.
  unfold rows_with. induction t as [|r t IH]; [done|].
  intros Hn. rewrite filter_cons. case_decide as Hk.
  - exfalso. apply Hn. by left.
  - apply IH. intros Hin. apply Hn. by right.
Qed.

(** The rows that carry the key after the statement: the one row written,
    whatever the table held and wherever the key stood. *)
Lemma upsert_rows_with now d p t :
  unique_keys t ->
  exists r, rows_with (params_key p) (snd (upsert now d p t)) = [r]
    /\ row_key r = params_key p
    /\ open_price r = p_open p /\ high_price r = p_high p
    /\ low_price r = p_low p /\ close_price r = p_close p
    /\ volume r = p_volume p
    /\ created_at r = if has_key (params_key p) t then now else d.
Proof.
  unfold unique_keys, rows_with.
  induction t as [|r t IH]; cbn [upsert map fst snd has_key existsb];
    intros Hu.
  - exists (new_row d p). rewrite filter_cons, decide_True by done.
    rewrite filter_nil. done.
  - apply NoDup_cons in Hu as [Hr Hu].
    destruct (key_eqb (row_key r) (params_key p)) eqn:E;
      cbn [fst snd orb].
    + apply key_eqb_true in E. exists (update_row now p r).
      rewrite filter_cons, decide_True by (by rewrite update_row_key).
      fold (rows_with (params_key p) t). rewrite rows_with_absent.
      * rewrite update_row_key. done.
      * rewrite <- E. intros Hin. apply Hr. by apply list_elem_of_In.
    + apply key_eqb_false in E.
      destruct (upsert now d p t) as [ins t''] eqn:Eu. cbn [fst snd] in *.
      rewrite filter_cons, decide_False by done. by apply IH.
Qed.

(** Rows under other keys are left as they were. *)
Lemma upsert_other_rows now d p t k :
  k <> params_key p ->
  rows_with k (snd (upsert now d p t)) = rows_with k t.
Proof.
  intros Hk. unfold rows_with.
  induction t as [|r t IH]; cbn [upsert fst snd].
  - rewrite filter_cons, decide_False; [done|]. rewrite new_row_key. done.
  - destruct (key_eqb (row_key r) (params_key p)) eqn:E; cbn [fst snd].
    + apply key_eqb_true in E. rewrite !filter_cons.
      rewrite update_row_key, !decide_False by congruence. done.
    + destruct (upsert now d p t) as [ins t''] eqn:Eu. cbn [fst snd] in *.
      rewrite !filter_cons, IH. done.
Qed.

(** On a collision the row is overwritten where it stands. *)
Lemma upsert_in_place now d p t :
  has_key (params_key p) t = true ->
  unique_keys t ->
  snd (upsert now d p t) =
  map (fun r => if key_eqb (row_key r) (params_key p)
                then update_row now p r else r) t.
Proof.
  unfold unique_keys.
  induction t as [|r t IH]; simpl; intros Hk Hu; [done|].
  apply NoDup_cons in Hu as [Hr Hu].
  destruct (key_eqb (row_key r) (params_key p)) eqn:E; simpl.
  - f_equal. apply key_eqb_true in E. clear IH Hk.
    assert (Hn : ~ In (params_key p) (map row_key t)).
    { rewrite <- E. intros Hin. apply Hr. by apply list_elem_of_In. }
    clear Hr. induction t as [|r' t IH]; simpl; [done|].
    apply NoDup_cons in Hu as [_ Hu].
    destruct (key_eqb (row_key r') (params_key p)) eqn:E'.
    + apply key_eqb_true in E'. exfalso. apply Hn. simpl. by left.
    + f_equal. apply IH; [done|]. intros Hin. apply Hn. simpl. by right.
  - destruct (upsert now d p t) as [ins t''] eqn:Eu. simpl in *.
    f_equal. by apply IH.
Qed.

End DbFacts.

(** ** The data source client *)

Module FetchFacts.
Import Py Sys Fetcher.

(** What a call may change besides the clock, the generator and the log:
    nothing. *)
Definition quiet (st st' : state) : Prop :=
  requests st' = requests st /\ db_calls st' = db_calls st
  /\ stored st' = stored st /\ conns st' = conns st
  /\ next_conn st' = next_conn st
  /\ exists logs, trace st' = trace st ++ logs
       /\ Forall (fun e => exists l, e = Log l) logs.

Lemma quiet_refl st : quiet st st.
Proof.
  repeat split. exists []. by rewrite app_nil_r.
Qed.

Lemma quiet_trans a b c : quiet a b -> quiet b c -> quiet a c.
Proof.
  intros (H1 & H2 & H3 & H4 & H5 & l1 & H6 & H7)
         (K1 & K2 & K3 & K4 & K5 & l2 & K6 & K7).
  repeat split; try congruence.
  exists (l1 ++ l2). split.
  - rewrite K6, H6. by rewrite app_assoc.
  - by apply Forall_app.
Qed.

Lemma quiet_log l st : quiet st (emit (Log l) st).
Proof.
  repeat split. exists [Log l]. split; [done|].
  constructor; [by exists l | constructor].
Qed.

(** The five labelled string fields of one entry. *)
Definition entry_shape (v : json) : Prop :=
  exists o h l c vol,
    v = JObj [("1. open", JStr o); ("2. high", JStr h); ("3. low", JStr l);
              ("4. close", JStr c); ("5. volume", JStr vol)].

(** The nested mapping a genuine payload has: a metadata block and, under
    the time-series key, a mapping from timestamps to entries. *)
Definition payload_shape (p : json) : Prop :=
  exists meta series,
    p = JObj [("Meta Data", JObj meta); (time_series_key, JObj series)]
    /\ Forall (fun kv => entry_shape (snd kv)) series.

(** [p] is a payload the synthetic generator made for [symbol]. *)
Definition synthetic (w : world) (symbol : string) (p : json) : Prop :=
  exists st0 st1, _get_demo_data w symbol st0 = (Ok p, st1).

(** A body the client returns as it is. *)
Definition genuine (data : json) : Prop :=
  py_contains "Error Message" data = Ok false
  /\ py_contains "Note" data = Ok false
  /\ py_contains time_series_key data = Ok true.

Section WithWorld.
Context (w : world).

Lemma dict_set_shape k v (series : list (string * json)) :
  entry_shape v ->
  Forall (fun kv => entry_shape (snd kv)) series ->
  Forall (fun kv => entry_shape (snd kv)) (dict_set k v series).
Proof.
  intros Hv. induction series as [|[k' v'] s IH]; simpl; intros Hs.
  - by constructor.
  - apply Forall_cons in Hs as [? ?].
    destruct (String.eqb k k'); constructor; auto.
Qed.

Lemma demo_point_runs b i st :
  exists k v st', demo_point w b i st = (Ok (k, v), st')
    /\ entry_shape v /\ quiet st st'.
Proof.
  do 3 eexists. split; [|split].
  - unfold demo_point, bind, datetime_now, random_uniform, random_randint, ret.
    cbv beta iota zeta. reflexivity.
  - unfold entry_shape. by do 5 eexists.
  - repeat split. exists []. simpl. by rewrite app_nil_r.
Qed.

Lemma demo_series_runs b range : forall series st,
  Forall (fun kv => entry_shape (snd kv)) series ->
  exists series' st', demo_series w b range series st = (Ok series', st')
    /\ Forall (fun kv => entry_shape (snd kv)) series' /\ quiet st st'.
Proof.
  induction range as [|i range IH]; intros series st Hs.
  - exists series, st. split; [done|]. split; [done|]. apply quiet_refl.
  - destruct (demo_point_runs b i st) as (k & v & st1 & E & Hv & Hq).
    destruct (IH (dict_set k v series) st1) as (s' & st' & E' & Hs' & Hq').
    { by apply dict_set_shape. }
    exists s', st'. split; [|split; [done|by eapply quiet_trans]].
    cbn [demo_series]. unfold bind at 1. rewrite E. exact E'.
Qed.

(** The generator always returns, whatever the symbol, and touches neither
    the network nor the database. *)
Lemma get_demo_data_runs symbol st :
  exists p st', _get_demo_data w symbol st = (Ok p, st')
    /\ payload_shape p /\ quiet st st'.
Proof.
  unfold _get_demo_data.
  set (st1 := snd (datetime_now w st)).
  destruct (demo_series_runs (base_price_of symbol) (seq 0 5) [] st1)
    as (s & st2 & E & Hs & Hq); [constructor|].
  do 2 eexists. split; [|split].
  - unfold bind at 1. cbn [datetime_now]. unfold bind at 1.
    fold st1 in E |- *. unfold st1 in E. cbn [datetime_now snd] in E.
    rewrite E. reflexivity.
  - unfold payload_shape. do 2 eexists. split; [reflexivity|done].
  - eapply quiet_trans; [|eapply quiet_trans; [exact Hq|apply quiet_log]].
    repeat split. exists []. simpl. by rewrite app_nil_r.
Qed.

Lemma payload_shape_has_series p :
  payload_shape p -> py_contains time_series_key p = Ok true.
Proof. intros (meta & series & -> & _). reflexivity. Qed.

(** What the client returns when it does not return the provider's body. *)
Definition fell_back (symbol : string) (p : json) : Prop :=
  synthetic w symbol p /\ payload_shape p.

Lemma demo_after (pre : M unit) symbol st st1 :
  pre st = (Ok tt, st1) ->
  exists p st', (pre ;; _get_demo_data w symbol) st = (Ok p, st')
    /\ fell_back symbol p.
Proof.
  intros E. destruct (get_demo_data_runs symbol st1) as (p & st' & E' & Hs & _).
  exists p, st'. split; [|split; [by exists st1, st'|done]].
  unfold bind. by rewrite E.
Qed.

Lemma fallback_runs symbol e st :
  exists p st', fallback w symbol e st = (Ok p, st') /\ fell_back symbol p.
Proof.
  unfold fallback.
  destruct (demo_after (log INFO) symbol (emit (Log ERROR) st)
              (emit (Log INFO) (emit (Log ERROR) st)) eq_refl)
    as (p & st' & E & H).
  exists p, st'. split; [|done]. unfold bind at 1. cbn [log]. exact E.
Qed.

(** The [try] statement of [fetch_stock_data], by cases on what the
    request comes to. *)
Lemma fetch_live_cases symbol k st :
  exists p st',
    try_except (fetch_live w symbol k)
      [(is_request_exception, fallback w symbol);
       (any_exception, fallback w symbol)] st = (Ok p, st')
    /\ match http_get w (requests st) symbol k with
       | HttpRaises _ => fell_back symbol p
       | HttpJson data =>
           (genuine data /\ p = data)
           \/ (~ genuine data /\ fell_back symbol p)
       end.
Proof.
  assert (Hcatch : forall e st1 (body : M json),
             body st = (Raise e, st1) ->
             try_except body
               [(is_request_exception, fallback w symbol);
                (any_exception, fallback w symbol)] st
             = fallback w symbol e st1).
  { intros e st1 body E. unfold try_except. rewrite E. cbn [dispatch].
    by destruct (is_request_exception e). }
  assert (Hraise : forall e st1 (Q : json -> Prop),
             fetch_live w symbol k st = (Raise e, st1) ->
             (forall p, fell_back symbol p -> Q p) ->
             exists p st',
               try_except (fetch_live w symbol k)
                 [(is_request_exception, fallback w symbol);
                  (any_exception, fallback w symbol)] st = (Ok p, st')
               /\ Q p).
  { intros e st1 Q E HQ. rewrite (Hcatch e st1 _ E).
    destruct (fallback_runs symbol e st1) as (p & st' & E' & H).
    exists p, st'. auto. }
  assert (Hdemo : forall st1 (Q : json -> Prop),
             fetch_live w symbol k st
             = (log WARNING ;; _get_demo_data w symbol) st1 ->
             (forall p, fell_back symbol p -> Q p) ->
             exists p st',
               try_except (fetch_live w symbol k)
                 [(is_request_exception, fallback w symbol);
                  (any_exception, fallback w symbol)] st = (Ok p, st')
               /\ Q p).
  { intros st1 Q E HQ.
    destruct (demo_after (log WARNING) symbol st1 _ eq_refl)
      as (p & st' & E' & H).
    exists p, st'. split; [|auto]. unfold try_except. by rewrite E, E'. }
  clear Hcatch.
  pose proof (eq_refl (fetch_live w symbol k st)) as E.
  unfold fetch_live at 2 in E. unfold bind at 1 in E. cbn [log] in E.
  unfold bind at 1, http_request in E. cbn [requests emit] in E.
  destruct (http_get w (requests st) symbol k) as [e|data].
  { eapply Hraise; [exact E|auto]. }
  unfold bind at 1, lift in E.
  destruct (py_contains "Error Message" data) as [[|]|e1] eqn:E1.
  - unfold bind at 1 in E.
    destruct (py_getitem data "Error Message") as [v|e2];
      (eapply Hraise; [exact E|]); intros p Hp; right;
      (split; [|done]); intros (G & _); congruence.
  - unfold bind at 1 in E.
    destruct (py_contains "Note" data) as [[|]|e2] eqn:E2.
    + unfold bind at 1 in E.
      destruct (py_getitem data "Note") as [v|e3].
      * eapply Hdemo; [exact E|]. intros p Hp. right.
        split; [|done]. intros (_ & G & _). congruence.
      * eapply Hraise; [exact E|]. intros p Hp. right.
        split; [|done]. intros (_ & G & _). congruence.
    + unfold bind at 1 in E.
      destruct (py_contains time_series_key data) as [[|]|e3] eqn:E3;
        cbn [negb] in E.
      * eexists data, _. unfold try_except. rewrite E.
        split; [reflexivity|]. by left.
      * eapply Hdemo; [exact E|]. intros p Hp. right.
        split; [|done]. intros (_ & _ & G). congruence.
      * eapply Hraise; [exact E|]. intros p Hp. right.
        split; [|done]. intros (_ & _ & G). congruence.
    + eapply Hraise; [exact E|]. intros p Hp. right.
      split; [|done]. intros (_ & G & _). congruence.
  - eapply Hraise; [exact E|]. intros p Hp. right.
    split; [|done]. intros (G & _). congruence.
Qed.

End WithWorld.

(** The client, by cases on the key and on what the request comes to. *)
Lemma fetch_stock_data_cases (w : world) (symbol : string)
    (st : state) :
  exists p st',
    fetch_stock_data w symbol st = (Ok p, st')
    /\ py_contains time_series_key p = Ok true
    /\ match getenv w "ALPHA_VANTAGE_API_KEY" with
       | None => fell_back w symbol p
       | Some k =>
           if no_valid_key (Some k) then fell_back w symbol p
           else
             match http_get w (requests st) symbol k with
             | HttpRaises _ => fell_back w symbol p
             | HttpJson data =>
                 (genuine data /\ p = data)
                 \/ (~ genuine data /\ fell_back w symbol p)
             end
       end.
Proof.
  assert (Hfb : forall p, fell_back w symbol p ->
                          py_contains time_series_key p = Ok true).
  { intros p [_ Hs]. by apply payload_shape_has_series. }
  unfold fetch_stock_data.
  destruct (getenv w "ALPHA_VANTAGE_API_KEY") as [k|] eqn:Ek.
  2:{ cbn [no_valid_key truthy negb orb].
      destruct (demo_after w (log WARNING) symbol st _ eq_refl)
        as (p & st' & E & H).
      exists p, st'. auto. }
  destruct (no_valid_key (Some k)) eqn:Ev.
  { destruct (demo_after w (log WARNING) symbol st _ eq_refl)
      as (p & st' & E & H).
    exists p, st'. auto. }
  cbn [default].
  destruct (fetch_live_cases w symbol k st) as (p & st' & E & H).
  exists p, st'. split; [exact E|].
  destruct (http_get w (requests st) symbol k) as [e|data].
  - auto.
  - destruct H as [[G ->]|[G H]]; [|auto].
    split; [apply G|by left].
Qed.

(** C2. [fetch_stock_data] always returns a payload and never raises.
    With a usable key, a request or decoding that raises, a body with an
    error field, a body with a rate-limit note and a body without the
    time-series key each make it return a payload of the synthetic
    generator, which has the nested shape of a genuine one; the provider's
    body is returned, unchanged, only when it has the time-series key and
    neither of the two fields. *)
Theorem fetch_stock_data_never_raises (w : world) (symbol : string)
    (st : state) :
  exists p st',
    fetch_stock_data w symbol st = (Ok p, st')
    /\ py_contains time_series_key p = Ok true
    /\ (forall k,
          getenv w "ALPHA_VANTAGE_API_KEY" = Some k ->
          no_valid_key (Some k) = false ->
          (forall e, http_get w (requests st) symbol k = HttpRaises e ->
                     fell_back w symbol p)
          /\ (forall data,
                http_get w (requests st) symbol k = HttpJson data ->
                (py_contains "Error Message" data = Ok true ->
                 fell_back w symbol p)
                /\ (py_contains "Note" data = Ok true ->
                    fell_back w symbol p)
                /\ (py_contains time_series_key data = Ok false ->
                    fell_back w symbol p)
                /\ (p = data /\ py_contains time_series_key data = Ok true
                    \/ fell_back w symbol p))).
Proof.
  destruct (fetch_stock_data_cases w symbol st) as (p & st' & E & Hk & H).
  exists p, st'. split; [exact E|]. split; [exact Hk|].
  intros k Ek Hv. rewrite Ek, Hv in H. split.
  - intros e He. by rewrite He in H.
  - intros data Hd. rewrite Hd in H.
    destruct H as [[(G1 & G2 & G3) ->]|[_ H]].
    + split; [congruence|]. split; [congruence|]. split; [congruence|].
      by left.
    + split; [done|]. split; [done|]. split; [done|]. by right.
Qed.

End FetchFacts.

(** ** The driver, call by call *)

Module DriverFacts.
Import Py Sys Dbapi.

Section WithWorld.
Context (w : world).

Lemma connect_run st :
  connect w st =
  if db_fault w (db_calls st) DbConnect
  then (Raise DatabaseError, tick DbConnect st)
  else (Ok (next_conn st), open_conn (tick DbConnect st)).
Proof.
  unfold connect, bind, db_call.
  by destruct (db_fault w (db_calls st) DbConnect).
Qed.

Lemma cursor_run c st :
  cursor w c st =
  if db_fault w (db_calls st) (DbCursor c)
  then (Raise DatabaseError, tick (DbCursor c) st)
  else match conns st !! c with
       | Some _ => (Ok c, tick (DbCursor c) st)
       | None => (Raise DatabaseError, tick (DbCursor c) st)
       end.
Proof.
  unfold cursor, bind, db_call, get_conn.
  destruct (db_fault w (db_calls st) (DbCursor c)); [done|].
  cbn [conns tick]. by destruct (conns st !! c).
Qed.

Lemma execute_table_exists_run c st :
  execute_table_exists w c st =
  if db_fault w (db_calls st) (DbExecute c)
  then (Raise DatabaseError, tick (DbExecute c) st)
  else match conns st !! c with
       | Some cn =>
           let view := current_txn w (db_calls st) cn st in
           (Ok tt,
            set_conns
              (<[c := {| txn := Some view;
                         fetched := Some (match snd view with
                                          | Some _ => true
                                          | None => false
                                          end) |}]> (conns st))
              (tick (DbExecute c) st))
       | None => (Raise DatabaseError, tick (DbExecute c) st)
       end.
Proof.
  unfold execute_table_exists, bind, db_call, get_conn.
  destruct (db_fault w (db_calls st) (DbExecute c)); [done|].
  cbn [conns tick]. destruct (conns st !! c) as [cn|]; [|done].
  unfold current_txn. cbn [stored]. by destruct (txn cn) as [[t0 work]|].
Qed.

Lemma fetchone_run c st :
  fetchone w c st =
  if db_fault w (db_calls st) (DbFetchOne c)
  then (Raise DatabaseError, tick (DbFetchOne c) st)
  else match conns st !! c with
       | Some cn =>
           match fetched cn with
           | Some b =>
               (Ok b, set_conns (<[c := {| txn := txn cn; fetched := None |}]>
                                   (conns st)) (tick (DbFetchOne c) st))
           | None => (Raise DatabaseError, tick (DbFetchOne c) st)
           end
       | None => (Raise DatabaseError, tick (DbFetchOne c) st)
       end.
Proof.
  unfold fetchone, bind, db_call, get_conn.
  destruct (db_fault w (db_calls st) (DbFetchOne c)); [done|].
  cbn [conns tick]. destruct (conns st !! c) as [cn|]; [|done].
  by destruct (fetched cn).
Qed.

Lemma commit_run c st :
  commit w c st =
  if db_fault w (db_calls st) (DbCommit c)
  then (Raise DatabaseError, tick (DbCommit c) st)
  else match conns st !! c with
       | Some cn =>
           match txn cn with
           | Some (_, work) =>
               (Ok tt,
                set_stored work
                  (set_conns (<[c := {| txn := None; fetched := fetched cn |}]>
                                (conns st)) (tick (DbCommit c) st)))
           | None => (Ok tt, tick (DbCommit c) st)
           end
       | None => (Raise DatabaseError, tick (DbCommit c) st)
       end.
Proof.
  unfold commit, bind, db_call, get_conn.
  destruct (db_fault w (db_calls st) (DbCommit c)); [done|].
  cbn [conns tick]. destruct (conns st !! c) as [cn|]; [|done].
  by destruct (txn cn) as [[t0 work]|].
Qed.

Lemma rollback_run c st :
  rollback w c st =
  if db_fault w (db_calls st) (DbRollback c)
  then (Raise DatabaseError, tick (DbRollback c) st)
  else match conns st !! c with
       | Some cn =>
           (Ok tt,
            set_conns (<[c := {| txn := None; fetched := fetched cn |}]>
                         (conns st)) (tick (DbRollback c) st))
       | None => (Raise DatabaseError, tick (DbRollback c) st)
       end.
Proof.
  unfold rollback, bind, db_call, get_conn.
  destruct (db_fault w (db_calls st) (DbRollback c)); [done|].
  cbn [conns tick]. by destruct (conns st !! c) as [cn|].
Qed.

Lemma cursor_close_run c st :
  cursor_close w c st =
  if db_fault w (db_calls st) (DbCursorClose c)
  then (Raise DatabaseError, tick (DbCursorClose c) st)
  else match conns st !! c with
       | Some cn =>
           (Ok tt,
            set_conns (<[c := {| txn := txn cn; fetched := None |}]>
                         (conns st)) (tick (DbCursorClose c) st))
       | None => (Ok tt, tick (DbCursorClose c) st)
       end.
Proof.
  unfold cursor_close, bind, db_call.
  destruct (db_fault w (db_calls st) (DbCursorClose c)); [done|].
  cbn [conns tick]. by destruct (conns st !! c) as [cn|].
Qed.

Lemma close_run c st :
  close w c st =
  if db_fault w (db_calls st) (DbClose c)
  then (Raise DatabaseError, tick (DbClose c) st)
  else (Ok tt, set_conns (delete c (conns st)) (tick (DbClose c) st)).
Proof.
  unfold close, bind, db_call.
  by destruct (db_fault w (db_calls st) (DbClose c)).
Qed.

Lemma execute_upsert_run c p st :
  execute_upsert w c p st =
  if db_fault w (db_calls st) (DbExecute c)
  then (Raise DatabaseError, tick (DbExecute c) st)
  else match conns st !! c with
       | None => (Raise DatabaseError, tick (DbExecute c) st)
       | Some cn =>
           let view := current_txn w (db_calls st) cn st in
           match snd view with
           | None =>
               (Raise DatabaseError,
                set_conns
                  (<[c := {| txn := Some (fst view, None);
                             fetched := None |}]> (conns st))
                  (tick (DbExecute c) st))
           | Some t =>
               let r := Db.upsert (fst view)
                          (created_at_default w (fst view)) p t in
               (Ok tt,
                set_conns
                  (<[c := {| txn := Some (fst view, Some (snd r));
                             fetched := Some (fst r) |}]> (conns st))
                  (tick (DbExecute c) st))
           end
       end.
Proof.
  unfold execute_upsert, bind, db_call, get_conn,
    set_conn, raise.
  destruct (db_fault w (db_calls st) (DbExecute c)); [done|].
  cbn [conns tick]. destruct (conns st !! c) as [cn|]; [|done].
  unfold current_txn. cbn [stored conns tick].
  destruct (txn cn) as [[t0 [t|]]|]; cbn [fst snd].
  - by destruct (Db.upsert t0 (created_at_default w t0) p t).
  - done.
  - destruct (stored st) as [t|]; cbn [fst snd]; [|done].
    by destruct (Db.upsert _ _ p t).
Qed.

Lemma get_database_connection_run st :
  Fetcher.get_database_connection w st =
  if db_fault w (db_calls st) DbConnect
  then (Raise DatabaseError, emit (Log ERROR) (tick DbConnect st))
  else (Ok (next_conn st), emit (Log INFO) (open_conn (tick DbConnect st))).
Proof.
  unfold Fetcher.get_database_connection, try_except, bind at 1.
  rewrite connect_run.
  by destruct (db_fault w (db_calls st) DbConnect).
Qed.

End WithWorld.

Ltac simp_state :=
  cbn [conns stored db_calls next_conn trace clock_reads draws requests
       Dbapi.tick emit Dbapi.set_conns Dbapi.set_stored Dbapi.open_conn
       Dbapi.current_txn txn fetched fst snd negb];
  rewrite ?lookup_insert_eq.

Ltac simp_state_in E :=
  cbn [conns stored db_calls next_conn trace clock_reads draws requests
       Dbapi.tick emit Dbapi.set_conns Dbapi.set_stored Dbapi.open_conn
       Dbapi.current_txn txn fetched fst snd negb] in E;
  rewrite ?lookup_insert_eq in E.

(** Runs a computation in hypothesis [E] call by call, splitting on every
    fault the oracle may inject. *)
Ltac exec_in E :=
  repeat first
    [ progress (cbv beta iota in E)
    | progress (simp_state_in E)
    | rewrite get_database_connection_run in E
    | rewrite cursor_run in E
    | rewrite execute_table_exists_run in E
    | rewrite execute_upsert_run in E
    | rewrite fetchone_run in E
    | rewrite commit_run in E
    | rewrite rollback_run in E
    | rewrite cursor_close_run in E
    | rewrite close_run in E
    | match goal with
      | H : conns ?s !! ?c = _ |- _ => rewrite H in E
      | H : stored ?s = _ |- _ => rewrite H in E
      | H : db_fault ?w ?k ?ev = _ |- _ => rewrite H in E
      end
    | match type of E with
      | context [if db_fault ?w ?k ?ev then _ else _] =>
          destruct (db_fault w k ev) eqn:?
      | context [match stored ?s with Some _ => _ | None => _ end] =>
          destruct (stored s) eqn:?
      | context [match conns ?s !! ?c with Some _ => _ | None => _ end] =>
          destruct (conns s !! c) eqn:?
      | context [current_txn _ _ ?cn _] => is_var cn; destruct cn as [? ?]
      | context [txn ?cn] => is_var cn; destruct cn as [? ?]
      | context [fetched ?cn] => is_var cn; destruct cn as [? ?]
      | context [current_txn _ _ {| txn := ?t; fetched := _ |} _] =>
          is_var t; destruct t as [[? ?]|]
      | context [match ?x with Some _ => _ | None => _ end] =>
          is_var x; destruct x
      | context [match ?x with pair _ _ => _ end] => is_var x; destruct x
      | context [if ?x then _ else _] => is_var x; destruct x
      end
    | progress (unfold bind at 1, log, raise, ret in E) ].

End DriverFacts.

(** ** The guards *)

Module GuardFacts.
Import Py Sys Fetcher.
Import DriverFacts FetchFacts.

(** Every way [validate_database_connection] can fail once it holds a
    connection leaves that connection open. *)
Lemma validate_failure_keeps_connection (w : world) st e st' :
  validate_database_connection w st = (Raise e, st') ->
  db_fault w (db_calls st) DbConnect = false ->
  is_Some (conns st' !! next_conn st).
Proof.
  intros E Hc. unfold validate_database_connection, try_except in E.
  unfold bind at 1 in E. rewrite get_database_connection_run, Hc in E.
  exec_in E; try discriminate;
    injection E as <- <-; simp_state; eauto.
Qed.

(** On success the connection has been closed. *)
Lemma validate_success_releases (w : world) st b st' :
  validate_database_connection w st = (Ok b, st') ->
  conns st' !! next_conn st = None /\ b = true /\ is_Some (stored st).
Proof.
  intros E. unfold validate_database_connection, try_except in E.
  unfold bind at 1 in E. rewrite get_database_connection_run in E.
  exec_in E; try discriminate.
  injection E as <- <-. simp_state. rewrite lookup_delete_eq. eauto.
Qed.

(** C3. With the database reachable and the table absent, the guard raises
    its schema error with the connection it opened still open: the trace
    ends with the two error logs and holds no [close]. *)
Theorem validate_keeps_connection_when_table_is_absent :
  let run := validate_database_connection Example.offline
               (Example.start None) in
  fst run = Raise (PlainException "Required table 'stock_prices' not found")
  /\ conns (snd run) !! 0%nat
     = Some {| txn := Some (1002, None); fetched := None |}
  /\ trace (snd run)
     = [DbConnect; Log INFO; DbCursor 0; DbExecute 0; DbFetchOne 0;
        Log ERROR; Log ERROR].
Proof.
  cbv zeta. split; [|split].
  - vm_compute. reflexivity.
  - vm_compute. reflexivity.
  - vm_compute. reflexivity.
Qed.

Lemma check_required_raises (w : world) required st :
  List.filter (fun var => negb (truthy (getenv w var))) required <> [] ->
  Dag.check_required w required st =
  (Raise (ValueError
            (Dag.missing_message
               (List.filter (fun var => negb (truthy (getenv w var)))
                  required))), st).
Proof.
  unfold Dag.check_required.
  destruct (List.filter _ required) as [|v l]; [done|]. done.
Qed.

Lemma check_required_passes (w : world) required st :
  Forall (fun var => truthy (getenv w var) = true) required ->
  Dag.check_required w required st = (Ok true, emit (Log INFO) st).
Proof.
  intros H. unfold Dag.check_required.
  assert (E : List.filter (fun var => negb (truthy (getenv w var))) required
              = []).
  { induction H as [|v l Hv _ IH]; [done|]. simpl. by rewrite Hv. }
  by rewrite E.
Qed.

Lemma guard_is_first :
  Forall (fun t => t = Dag.CheckEnv \/ Dag.CheckEnv ∈ Dag.ancestors 5 t)
    Dag.tasks.
Proof. apply (bool_decide_unpack _). vm_compute. reflexivity. Qed.

(** C9. With the API key unset the environment guard raises a
    [ValueError] whose message lists every required variable that is
    missing, and leaves the state as it found it: no request was sent and no
    database call made.  It succeeds when no required variable is missing.
    In the graph every other task has the guard among its ancestors. *)
Theorem environment_guard_names_missing (w : world) (st : state) :
  (getenv w Dag.api_key_var = None ->
   Dag.check_environment_variables w st =
   (Raise (ValueError
      "Missing required environment variables: ['ALPHA_VANTAGE_API_KEY']"),
    st))
  /\ (forall required : list string,
        let missing :=
          List.filter (fun var => negb (truthy (getenv w var))) required in
        missing <> [] ->
        Dag.check_required w required st =
        (Raise (ValueError (Dag.missing_message missing)), st)
        /\ forall var, In var required ->
                       truthy (getenv w var) = false -> In var missing)
  /\ (truthy (getenv w Dag.api_key_var) = true ->
      Dag.check_environment_variables w st = (Ok true, emit (Log INFO) st))
  /\ (forall t, t ∈ Dag.tasks -> t <> Dag.CheckEnv ->
                Dag.CheckEnv ∈ Dag.ancestors 5 t).
Proof.
  split; [|split; [|split]].
  - intros E. unfold Dag.check_environment_variables, Dag.required_vars.
    rewrite check_required_raises; simpl; rewrite E; done.
  - intros required missing Hm. split.
    + by apply check_required_raises.
    + intros var Hin Hv. apply filter_In. split; [done|]. by rewrite Hv.
  - intros E. apply check_required_passes. by repeat constructor.
  - intros t Ht Hne.
    pose proof (proj1 (Forall_forall _ _) guard_is_first t Ht) as [|]; done.
Qed.

(** C6, the claim as stated fails: with the key absent the first task of the
    pipeline, the environment guard, raises. *)
Lemma absent_key_fails_the_guard :
  getenv Example.offline Dag.api_key_var = None
  /\ Dag.python_callable Example.offline Dag.CheckEnv
       (Example.start (Some []))
     = (Raise (ValueError
          "Missing required environment variables: ['ALPHA_VANTAGE_API_KEY']"),
        Example.start (Some [])).
Proof. split; vm_compute; reflexivity. Qed.

Lemma synthetic_without_key (w : world) symbol st :
  no_valid_key (getenv w Dag.api_key_var) = true ->
  exists p st',
    fetch_stock_data w symbol st = (Ok p, st')
    /\ fell_back w symbol p /\ quiet st st'.
Proof.
  intros Hk. unfold fetch_stock_data. unfold Dag.api_key_var in Hk.
  rewrite Hk. unfold bind. cbn [log].
  destruct (get_demo_data_runs w symbol (emit (Log WARNING) st))
    as (p & st' & E & Hs & Hq).
  exists p, st'. rewrite E. split; [done|]. split.
  - split; [|done]. by exists (emit (Log WARNING) st), st'.
  - eapply quiet_trans; [apply quiet_log|exact Hq].
Qed.

(** C6, amended. Without a usable key (unset, empty or the placeholder)
    [fetch_stock_data] returns synthetic data at once: no request is counted
    and nothing but log lines is added to the trace.  With the placeholder
    the environment guard passes; with the key unset or empty the guard
    raises, which is the one task that fails for want of the credential. *)
Theorem no_usable_key_means_synthetic_data (w : world) (symbol : string)
    (st : state) :
  no_valid_key (getenv w Dag.api_key_var) = true ->
  (exists p st',
      fetch_stock_data w symbol st = (Ok p, st')
      /\ fell_back w symbol p
      /\ requests st' = requests st
      /\ exists logs, trace st' = trace st ++ logs
                      /\ Forall (fun e => is_http e = false) logs)
  /\ (getenv w Dag.api_key_var = Some placeholder_key ->
      Dag.check_environment_variables w st = (Ok true, emit (Log INFO) st))
  /\ (truthy (getenv w Dag.api_key_var) = false ->
      Dag.check_environment_variables w st =
      (Raise (ValueError (Dag.missing_message [Dag.api_key_var])), st)).
Proof.
  intros Hk. split; [|split].
  - destruct (synthetic_without_key w symbol st Hk)
      as (p & st' & E & Hp & Hq).
    destruct Hq as (Hr & _ & _ & _ & _ & logs & Ht & Hl).
    exists p, st'. split; [done|]. split; [done|]. split; [done|].
    exists logs. split; [done|].
    eapply Forall_impl; [exact Hl|]. by intros ? [l ->].
  - intros E. apply check_required_passes. repeat constructor. by rewrite E.
  - intros E. unfold Dag.check_environment_variables, Dag.required_vars.
    rewrite check_required_raises; simpl; rewrite E; done.
Qed.

Lemma no_usable_key_example :
  exists p st',
    fetch_stock_data (Example.with_env Example.placeholder_env Example.offline)
      "AAPL" (Example.start (Some [])) = (Ok p, st')
    /\ requests st' = 0%nat.
Proof.
  destruct (no_usable_key_means_synthetic_data
              (Example.with_env Example.placeholder_env Example.offline)
              "AAPL" (Example.start (Some [])) eq_refl)
    as [(p & st' & E & _ & Hr & _) _].
  exists p, st'. split; [exact E|exact Hr].
Defined.

Lemma base_price_default symbol :
  ~ In symbol Dag.STOCK_SYMBOLS -> base_price_of symbol = 100%Q.
Proof.
  intros Hn. unfold base_price_of, base_prices. cbn [dict_get].
  repeat match goal with
  | |- context [String.eqb symbol ?s] =>
      destruct (String.eqb_spec symbol s) as [->|_];
        [exfalso; apply Hn; simpl; tauto|]
  end.
  reflexivity.
Qed.

(** C10. For a symbol outside the five configured ones the generator runs
    all the same, from the default base price 100: the series it returns is
    the one built from that base.  So in synthetic mode [fetch_stock_data]
    returns for every symbol string. *)
Theorem unknown_symbol_uses_default_base (w : world) (symbol : string)
    (st : state) :
  ~ In symbol Dag.STOCK_SYMBOLS ->
  base_price_of symbol = 100%Q
  /\ (exists meta series st1 st',
        demo_series w 100%Q (seq 0 5) [] (snd (datetime_now w st))
        = (Ok series, st1)
        /\ _get_demo_data w symbol st
           = (Ok (JObj [("Meta Data", meta);
                        (time_series_key, JObj series)]), st')
        /\ Forall (fun kv => entry_shape (snd kv)) series)
  /\ (no_valid_key (getenv w Dag.api_key_var) = true ->
      exists p st', fetch_stock_data w symbol st = (Ok p, st')
                    /\ fell_back w symbol p).
Proof.
  intros Hn. pose proof (base_price_default symbol Hn) as Hb.
  split; [done|]. split.
  - destruct (demo_series_runs w 100%Q (seq 0 5) [] (snd (datetime_now w st)))
      as (series & st1 & E & Hs & _); [constructor|].
    eexists _, series, st1, _. split; [exact E|]. split; [|exact Hs].
    unfold _get_demo_data. rewrite Hb. unfold bind at 1.
    cbn [datetime_now snd] in E |- *. unfold bind at 1. rewrite E.
    reflexivity.
  - intros Hk. destruct (synthetic_without_key w symbol st Hk)
      as (p & st' & E & Hp & _). eauto.
Qed.

Lemma unknown_symbol_example :
  base_price_of "NFLX" = 100%Q
  /\ is_ok (fst (fetch_stock_data Example.offline "NFLX"
                   (Example.start (Some [])))) = true.
Proof.
  destruct (unknown_symbol_uses_default_base Example.offline "NFLX"
              (Example.start (Some [])))
    as (Hb & _ & Hf).
  - simpl. intros H. repeat destruct H as [H|H]; try discriminate H. done.
  - split; [exact Hb|].
    destruct (Hf eq_refl) as (p & st' & E & _). by rewrite E.
Defined.

End GuardFacts.

(** ** The upsert writer *)

Module WriterFacts.
Import Py Sys Fetcher.
Import DriverFacts FetchFacts.

(** What the write loop may add to the trace. *)
Definition loop_event (c : nat) (e : event) : Prop :=
  e = Log WARNING \/ e = DbExecute c \/ e = DbFetchOne c.

(** What the write loop leaves alone: the committed table, and the
    connection it writes through stays open. *)
Definition loop_frame (c : nat) (st st' : state) : Prop :=
  stored st' = stored st
  /\ next_conn st' = next_conn st
  /\ (is_Some (conns st !! c) -> is_Some (conns st' !! c))
  /\ exists evs, trace st' = trace st ++ evs /\ Forall (loop_event c) evs.

Definition bump (ins : bool) (counts : Z * Z) : Z * Z :=
  if ins then (fst counts + 1, snd counts) else (fst counts, snd counts + 1).

(** The batch as a function on the table: the entries that parse are
    upserted in order at transaction time [now], the others pass by. *)
Fixpoint batch (w : world) (now : Z) (symbol : string)
    (items : list (string * json)) (acc : (Z * Z) * Db.table)
  : (Z * Z) * Db.table :=
  match items with
  | [] => acc
  | item :: rest =>
      match parse_entry w symbol (fst item) (snd item) with
      | Ok p =>
          let '(ins, t') :=
            Db.upsert now (created_at_default w now) p (snd acc) in
          batch w now symbol rest (bump ins (fst acc), t')
      | Raise _ => batch w now symbol rest acc
      end
  end.

(** The entry parses, or fails in a way the loop catches. *)
Definition parses_or_skips (w : world) (symbol : string)
    (item : string * json) : Prop :=
  match parse_entry w symbol (fst item) (snd item) with
  | Ok _ => True
  | Raise e => is_value_or_key_error e = true
  end.

Definition valid (w : world) (symbol : string) (item : string * json)
  : bool :=
  is_ok (parse_entry w symbol (fst item) (snd item)).

(** No call on the driver fails. *)
Definition healthy (w : world) : Prop :=
  forall k ev, db_fault w k ev = false.

Section WithWorld.
Context (w : world).

Lemma loop_frame_refl c st : loop_frame c st st.
Proof.
  repeat split; [done|]. exists []. by rewrite app_nil_r.
Qed.

Lemma loop_frame_trans c a b d :
  loop_frame c a b -> loop_frame c b d -> loop_frame c a d.
Proof.
  intros (H1 & H2 & H3 & l1 & H4 & H5) (K1 & K2 & K3 & l2 & K4 & K5).
  repeat split; try congruence; [auto|].
  exists (l1 ++ l2). split.
  - rewrite K4, H4. by rewrite app_assoc.
  - by apply Forall_app.
Qed.

(** An entry's parse raises one of three classes. *)
Lemma parse_entry_raises symbol ts values e :
  parse_entry w symbol ts values = Raise e ->
  is_value_or_key_error e = true \/ e = TypeError.
Proof.
  unfold parse_entry, py_strptime, rbind.
  destruct (strptime w ts); [|intros [= <-]; by left].
  assert (Hget : forall f e', py_getitem values f = Raise e' ->
             is_value_or_key_error e' = true \/ e' = TypeError).
  { intros f e'. unfold py_getitem. destruct values; try (intros [= <-]; auto).
    destruct (dict_get f fields); intros [= <-]. by left. }
  assert (Hfloat : forall v e', py_float w v = Raise e' ->
             is_value_or_key_error e' = true \/ e' = TypeError).
  { intros v e'. unfold py_float.
    destruct v; try (intros [= <-]; auto); try discriminate.
    destruct (float_of_string w s); intros [= <-]. by left. }
  assert (Hint : forall v e', py_int w v = Raise e' ->
             is_value_or_key_error e' = true \/ e' = TypeError).
  { intros v e'. unfold py_int.
    destruct v; try (intros [= <-]; auto); try discriminate.
    destruct (int_of_string w s); intros [= <-]. by left. }
  repeat match goal with
  | |- context [py_getitem values ?f] =>
      let E := fresh "E" in
      destruct (py_getitem values f) as [?|?] eqn:E;
        [|intros [= <-]; by eapply Hget]
  | |- context [py_float w ?v] =>
      let E := fresh "E" in
      destruct (py_float w v) as [?|?] eqn:E;
        [|intros [= <-]; by eapply Hfloat]
  | |- context [py_int w ?v] =>
      let E := fresh "E" in
      destruct (py_int w v) as [?|?] eqn:E;
        [|intros [= <-]; by eapply Hint]
  end.
  discriminate.
Qed.

Ltac frame_leaf :=
  unfold loop_frame; simp_state; rewrite <- ?app_assoc;
  split; [done|]; split; [done|]; split; [eauto|];
  eexists; (split; [reflexivity|]);
  repeat constructor; unfold loop_event; auto.

(** One turn of the loop, whatever the database does: it leaves the
    committed table alone, keeps the connection, and what it lets through is
    a database error or a [TypeError]. *)
Lemma store_entry_frame c symbol counts item st r st' :
  store_entry w c symbol counts item st = (r, st') ->
  loop_frame c st st'
  /\ forall e, r = Raise e -> e = DatabaseError \/ e = TypeError.
Proof.
  intros E. unfold store_entry, try_except in E.
  unfold bind at 1, lift in E.
  destruct (parse_entry w symbol item.1 item.2) as [p|e0] eqn:Ep.
  - exec_in E;
      cbn [dispatch is_value_or_key_error] in E;
      injection E as <- <-;
      (split; [frame_leaf|]); intros e [= <-] || intros e [=]; auto.
  - apply parse_entry_raises in Ep as [Hs| ->].
    + cbn [dispatch] in E. rewrite Hs in E. exec_in E.
      injection E as <- <-. split; [frame_leaf|]. intros e [=].
    + cbn [dispatch is_value_or_key_error] in E. injection E as <- <-.
      split; [apply loop_frame_refl|]. intros e [= <-]. auto.
Qed.

Lemma store_all_frame c symbol items : forall counts st r st',
  store_all w c symbol counts items st = (r, st') ->
  loop_frame c st st'
  /\ forall e, r = Raise e -> e = DatabaseError \/ e = TypeError.
Proof.
  induction items as [|item items IH]; intros counts st r st' E.
  - injection E as <- <-. split; [apply loop_frame_refl|]. intros e [=].
  - cbn [store_all] in E. unfold bind at 1 in E.
    destruct (store_entry w c symbol counts item st) as [[counts'|e0] st1]
      eqn:E1;
      apply store_entry_frame in E1 as [F1 R1].
    + apply IH in E as [F2 R2]. split; [by eapply loop_frame_trans|done].
    + injection E as <- <-. split; [done|]. intros e [= <-]. by apply R1.
Qed.

Ltac no_fault Hh :=
  match goal with
  | H : db_fault _ _ _ = true |- _ => rewrite Hh in H; discriminate H
  end.

(** The handler once [conn] is bound: it logs, attempts the rollback and,
    when that returns, the close; the error it was given goes on. *)
Lemma on_error_bound {A} c e st :
  exists st',
    @on_error w A (Some c) e st = (Raise e, st')
    /\ stored st' = stored st
    /\ if db_fault w (db_calls st) (DbRollback c)
       then trace st' = trace st ++ [Log ERROR; DbRollback c]
            /\ conns st' = conns st
       else match conns st !! c with
            | None => trace st' = trace st ++ [Log ERROR; DbRollback c]
                      /\ conns st' = conns st
            | Some _ =>
                trace st' = trace st ++ [Log ERROR; DbRollback c; DbClose c]
                /\ db_calls st' = S (S (db_calls st))
                /\ (db_fault w (S (db_calls st)) (DbClose c) = false ->
                    conns st' !! c = None)
            end.
Proof.
  pose proof (eq_refl (@on_error w A (Some c) e st)) as E.
  unfold on_error at 2, cleanup, try_except in E.
  exec_in E; cbn [dispatch any_exception] in E; exec_in E;
    eexists; (split; [exact E|]); simp_state; rewrite <- ?app_assoc;
    (split; [done|]); try done.
  split; [done|]. split; [done|]. intros _. apply lookup_delete_eq.
Qed.

Lemma on_error_unbound {A} e st :
  @on_error w A None e st = (Raise e, emit (Log ERROR) st).
Proof. reflexivity. Qed.

Lemma write_phase_outcomes symbol series c st2 r st3 :
  is_Some (conns st2 !! c) ->
  write_phase w symbol series c st2 = (r, st3) ->
  exists evs, Forall (loop_event c) evs /\
    match r with
    | Ok res =>
        trace st3 = trace st2 ++ [DbCursor c] ++ evs
                    ++ [DbCommit c; DbCursorClose c; DbClose c; Log INFO]
        /\ conns st3 !! c = None
        /\ res_symbol res = symbol /\ status res = "success"
    | Raise e =>
        is_Some (conns st3 !! c)
        /\ exists tail,
             trace st3 = trace st2 ++ [DbCursor c] ++ evs ++ tail
             /\ ((tail = [] \/ tail = [DbCommit c])
                 /\ stored st3 = stored st2
                 \/ tail = [DbCommit c; DbCursorClose c]
                 \/ tail = [DbCommit c; DbCursorClose c; DbClose c])
    end.
Proof.
  intros [cn Hopen] E. unfold write_phase in E.
  unfold bind at 1 in E. rewrite cursor_run, Hopen in E.
  destruct (db_fault w (db_calls st2) (DbCursor c)) eqn:F1.
  { injection E as <- <-. exists []. split; [constructor|].
    simp_state. rewrite Hopen. split; [eauto|]. exists [].
    split; [done|]. left. auto. }
  unfold bind at 1, lift in E.
  destruct (py_items series) as [items|e0].
  2:{ injection E as <- <-. exists []. split; [constructor|].
      simp_state. rewrite Hopen. split; [eauto|]. exists [].
      split; [done|]. left. auto. }
  unfold bind at 1 in E.
  destruct (store_all w c symbol (0, 0) items (Dbapi.tick (DbCursor c) st2))
    as [[counts|e0] sl] eqn:El;
    apply store_all_frame in El as [(Hs & _ & Hk & evs & Ht & Hev) _];
    simp_state_in Hs; simp_state_in Ht; simp_state_in Hk;
    destruct (Hk ltac:(eauto)) as [cl Hcl];
    exists evs; (split; [exact Hev|]).
  2:{ injection E as <- <-. split; [eauto|]. exists [].
      rewrite app_nil_r, Ht, <- !app_assoc. split; [done|]. left. auto. }
  exec_in E; try discriminate;
    injection E as <- <-; simp_state; rewrite ?Ht, <- ?app_assoc;
    first
      [ split; [done|]; split; [apply lookup_delete_eq|]; done
      | split; [eauto|]; eexists; (split; [reflexivity|]);
        first [ left; split; [first [by left | by right]|done]
              | right; left; reflexivity
              | right; right; reflexivity ] ].
Qed.

(** The loop's view of the table: the rows committed before the call are
    [tc]; the connection either has no transaction yet (the next statement
    starts one now, on [tc]) or holds the working copy [tw] of a
    transaction begun at [t0]. *)
Definition writing (c : nat) (t0 : Z) (tw tc : Db.table) (st : state)
  : Prop :=
  stored st = Some tc
  /\ exists fe,
       (conns st !! c = Some {| txn := None; fetched := fe |}
        /\ tw = tc /\ t0 = db_now w (db_calls st))
       \/ conns st !! c = Some {| txn := Some (t0, Some tw); fetched := fe |}.


Lemma store_entry_healthy c symbol counts item st t0 tw tc :
  healthy w ->
  writing c t0 tw tc st ->
  parses_or_skips w symbol item ->
  exists st',
    store_entry w c symbol counts item st
    = (Ok (fst (batch w t0 symbol [item] (counts, tw))), st')
    /\ writing c t0 (snd (batch w t0 symbol [item] (counts, tw))) tc st'.
Proof.
  intros Hh (Hst & fe & Hc) Hp.
  pose proof (eq_refl (store_entry w c symbol counts item st)) as E.
  unfold store_entry at 2, try_except in E.
  unfold bind at 1, lift in E. unfold parses_or_skips in Hp.
  cbn [batch fst snd]. destruct (parse_entry w symbol item.1 item.2) as [p|e0].
  - destruct Hc as [(Hc & -> & ->)|Hc].
    + exec_in E; try no_fault Hh; try congruence.
      destruct (Db.upsert _ _ p tc) as [ins t'] eqn:Eu.
      cbn [fst snd] in E |- *. unfold bump. cbn [fst snd].
      eexists. split; [exact E|].
      split; [simp_state; done|]. exists None. right. simp_state. done.
    + exec_in E; try no_fault Hh; try congruence.
      destruct (Db.upsert _ _ p tw) as [ins t'] eqn:Eu.
      cbn [fst snd] in E |- *. unfold bump. cbn [fst snd].
      eexists. split; [exact E|].
      split; [simp_state; done|]. exists None. right. simp_state. done.
  - cbn [dispatch] in E. rewrite Hp in E. exec_in E.
    eexists. split; [exact E|]. split; [simp_state; done|].
    exists fe. simp_state. done.
Qed.

Lemma batch_cons now symbol item rest acc :
  batch w now symbol (item :: rest) acc
  = batch w now symbol rest (batch w now symbol [item] acc).
Proof.
  cbn [batch]. destruct (parse_entry w symbol item.1 item.2); [|done].
  by destruct (Db.upsert _ _ a acc.2).
Qed.

Lemma store_all_healthy c symbol items : forall counts st t0 tw tc,
  healthy w ->
  writing c t0 tw tc st ->
  Forall (parses_or_skips w symbol) items ->
  exists st',
    store_all w c symbol counts items st
    = (Ok (fst (batch w t0 symbol items (counts, tw))), st')
    /\ writing c t0 (snd (batch w t0 symbol items (counts, tw))) tc st'.
Proof.
  induction items as [|item items IH]; intros counts st t0 tw tc Hh Hw Hp.
  - exists st. done.
  - apply Forall_cons in Hp as [Hp Hps].
    destruct (store_entry_healthy c symbol counts item st t0 tw tc Hh Hw Hp)
      as (st1 & E1 & Hw1).
    destruct (IH (fst (batch w t0 symbol [item] (counts, tw))) st1 t0
                (snd (batch w t0 symbol [item] (counts, tw))) tc Hh Hw1 Hps)
      as (st' & E' & Hw').
    exists st'. rewrite batch_cons.
    rewrite <- surjective_pairing in E', Hw'. split; [|exact Hw'].
    cbn [store_all]. unfold bind at 1. rewrite E1. exact E'.
Qed.

(** With a database that works, the write phase returns the counters of
    the batch, commits its table and closes the connection. *)
Lemma write_phase_healthy symbol items c st tc fe :
  healthy w ->
  stored st = Some tc ->
  conns st !! c = Some {| txn := None; fetched := fe |} ->
  Forall (parses_or_skips w symbol) items ->
  let done := batch w (db_now w (S (db_calls st))) symbol items
                ((0, 0), tc) in
  exists st',
    write_phase w symbol (JObj items) c st
    = (Ok {| res_symbol := symbol;
             records_inserted := fst (fst done);
             records_updated := snd (fst done);
             status := "success" |}, st')
    /\ stored st' = Some (snd done)
    /\ conns st' !! c = None.
Proof.
  intros Hh Hst Hc Hp done.
  pose proof (eq_refl (write_phase w symbol (JObj items) c st)) as E.
  unfold write_phase at 2 in E. unfold bind at 1 in E.
  rewrite cursor_run, Hh, Hc in E. cbv beta iota in E.
  unfold bind at 1, lift, py_items in E. cbv beta iota in E.
  unfold bind at 1 in E.
  destruct (store_all_healthy c symbol items (0, 0)
              (Dbapi.tick (DbCursor c) st) (db_now w (S (db_calls st)))
              tc tc Hh) as (sl & El & Hsl & fl & Hl); [|exact Hp|].
  { split; [done|]. exists fe. left. done. }
  fold done in El, Hl. rewrite El in E.
  destruct Hl as [(Hl & Hd & _)|Hl];
    exec_in E; try no_fault Hh;
    eexists; (split; [exact E|]); simp_state;
    (split; [congruence|]); apply lookup_delete_eq.
Qed.

(** The first part of the [try] block, once the payload is there. *)
Lemma bind_phase_run fetch symbol st raw st1 :
  fetch (emit (Log INFO) st) = (Ok raw, st1) ->
  bind_phase w fetch symbol st =
  match py_contains time_series_key raw with
  | Raise e => (Raise e, st1)
  | Ok false =>
      (Raise (PlainException ("No time series data found for " +:+ symbol)),
       st1)
  | Ok true =>
      match py_getitem raw time_series_key with
      | Raise e => (Raise e, st1)
      | Ok series =>
          if db_fault w (db_calls st1) DbConnect
          then (Raise DatabaseError,
                emit (Log ERROR) (Dbapi.tick DbConnect st1))
          else (Ok (series, next_conn st1),
                emit (Log INFO) (Dbapi.open_conn (Dbapi.tick DbConnect st1)))
      end
  end.
Proof.
  intros Ef. unfold bind_phase. unfold bind at 1. cbn [log].
  unfold bind at 1. rewrite Ef. unfold bind at 1, lift.
  destruct (py_contains time_series_key raw) as [[|]|e]; [|done|done].
  cbn [negb]. unfold bind at 1, ret. unfold bind at 1.
  destruct (py_getitem raw time_series_key) as [series|e]; [|done].
  unfold bind at 1. rewrite get_database_connection_run.
  by destruct (db_fault w (db_calls st1) DbConnect).
Qed.

Lemma process_with_bound fetch symbol st series c st2 :
  bind_phase w fetch symbol st = (Ok (series, c), st2) ->
  process_with w fetch symbol st =
  try_except (write_phase w symbol series c)
    [(any_exception, on_error w (Some c))] st2.
Proof.
  intros E. unfold process_with. unfold bind at 1.
  unfold try_except at 1. rewrite E. reflexivity.
Qed.

Lemma process_with_unbound fetch symbol st e st2 :
  bind_phase w fetch symbol st = (Raise e, st2) ->
  process_with w fetch symbol st = (Raise e, emit (Log ERROR) st2).
Proof.
  intros E. unfold process_with. unfold bind at 1.
  unfold try_except at 1. rewrite E. reflexivity.
Qed.

End WithWorld.
End WriterFacts.
